(** * eznve: a session layer around a hardware video encoder

    A shallow embedding of [include/eznve.hpp].  The header declares the
    [encoder] class: its data members, the inline observers, [set_callback],
    the scratch-buffer helper [pbuf_as] and the defaulted move operations.
    The constructor, the destructor, [submit_frame] and [flush] are only
    declared there; their bodies are modelled from the specification and
    marked as such. *)

From Stdlib Require Import ZArith List Lia Bool QArith Qabs.
From Stdlib Require Import Floats.PrimFloat Floats.SpecFloat Floats.FloatOps.
From Stdlib Require Import Floats.FloatAxioms.
From Stdlib Require Import Numbers.Cyclic.Int63.Uint63.
Import ListNotations.
Local Open Scope Z_scope.

Module eznve.

(** ** Machine integers *)

(** [std::uint32_t] and [std::size_t]/[uint64_t] arithmetic wraps around. *)
Definition wrap32 (z : Z) : Z := z mod 2 ^ 32.
Definition wrap64 (z : Z) : Z := z mod 2 ^ 64.

(** ** Data model *)

Inductive codec : Set := h264 | hevc.

Inductive frame_flag : Set := none | idr.

(** CUDA's [uint2]. *)
Record uint2 : Set := mk_uint2 { x : Z; y : Z }.

(** [chunk_info]: the span is modelled by the bytes it views. *)
Record chunk_info : Set := mk_chunk {
  data : list Byte.byte;
  index : Z;
  timestamp : Z;
  duration : Z
}.

(** A [void*] or [CUdeviceptr]; [0] is the null pointer. *)
Definition handle : Set := Z.
Definition nullptr : handle := 0.

(** [std::move_only_function<void(const chunk_info&)>]: either empty or a
    callable, which is identified by a name; what a callable received is
    recorded in the delivery log of the [world] below. *)
Definition data_callback_t : Set := option nat.

(** [param_buffer_t], a [std::array<std::byte, 2048>]: its bytes by offset
    from [data()].  The size is part of the type: only the offsets below
    [param_buffer_size] are bytes of the array, and what the function says
    at any other offset means nothing. *)
Definition memory : Type := nat -> Byte.byte.
Definition param_buffer_size : nat := 2048.

(** [std::make_unique<param_buffer_t>()] value-initialises the array. *)
Definition fresh_param_buffer : memory := fun _ => Byte.x00.

(** The data members of [class encoder], in declaration order.
    [pbuf] is [None] for a null [unique_ptr]. *)
Record encoder : Type := mk_encoder {
  data_cb : data_callback_t;
  pbuf : option memory;
  input_buffer : handle;
  dims : uint2;
  fps_ : uint2;
  in_registration : handle;
  out_stream : handle;
  session : handle;
  bytes_encoded : Z;
  frames_encoded : Z
}.

(** ** Member functions as state transformers *)

(** A member function returning [A]: it receives the object and hands it
    back together with its result. *)
Definition method (A : Type) : Type := encoder -> A * encoder.

Definition ret {A : Type} (a : A) : method A := fun e => (a, e).

Definition bind {A B : Type} (m : method A) (k : A -> method B) : method B :=
  fun e => let (a, e') := m e in k a e'.

Definition member {A : Type} (proj : encoder -> A) : method A :=
  fun e => (proj e, e).

Definition eval {A : Type} (m : method A) (e : encoder) : A := fst (m e).
Definition exec {A : Type} (m : method A) (e : encoder) : encoder := snd (m e).

Declare Scope method_scope.
Delimit Scope method_scope with method.
Notation "v <- m ;; k" := (bind m (fun v => k))
  (at level 61, m at next level, right associativity) : method_scope.

(** *** Observers *)

Definition buffer : method handle := member input_buffer.

Definition width : method Z := (d <- member dims ;; ret (x d))%method.

Definition height : method Z := (d <- member dims ;; ret (y d))%method.

(** Conversion of an unsigned 32-bit value to [double]; it is exact. *)
Definition double_of_uint32 (z : Z) : float :=
  PrimFloat.of_uint63 (Uint63.of_Z z).

Definition fps : method float :=
  (r <- member fps_ ;;
   ret (PrimFloat.div (double_of_uint32 (x r)) (double_of_uint32 (y r))))%method.

Definition fps_exact : method uint2 := member fps_.

Definition total_bytes : method Z := member bytes_encoded.

Definition total_frames : method Z := member frames_encoded.

Definition time : method float :=
  (n <- total_frames ;;
   r <- fps ;;
   ret (PrimFloat.div (double_of_uint32 n) r))%method.

(** *** The callback slot *)

Definition with_data_cb (cb : data_callback_t) (e : encoder) : encoder :=
  mk_encoder cb (pbuf e) (input_buffer e) (dims e) (fps_ e)
    (in_registration e) (out_stream e) (session e)
    (bytes_encoded e) (frames_encoded e).

Definition set_callback (cb : data_callback_t) : method unit :=
  fun e => (tt, with_data_cb cb e).

(** *** The scratch buffer *)

(** Why a call has no defined result. *)
Inductive fault : Set :=
| null_pbuf
| overrun (off : nat).

(** A result, or undefined behaviour: [null_pbuf] for [pbuf->data()] through
    a null [unique_ptr], [overrun off] for a store at offset [off], which
    is not a byte of the array. *)
Inductive outcome (A : Type) : Type :=
| done (a : A)
| undefined (f : fault).
Arguments done {A} a.
Arguments undefined {A} f.

(** One byte store into the array; there is none outside it. *)
Definition store (m : memory) (a : nat) (b : Byte.byte) : option memory :=
  if (a <? param_buffer_size)%nat
  then Some (fun a' => if Nat.eqb a' a then b else m a')
  else None.

(** [memset(dest, ch, count)] on the array: [count] stores, one per byte,
    from [dest] upwards, with no regard to where the array ends.  The result
    lists the offsets stored to, in order; the first store that leaves the
    array makes the call undefined. *)
Fixpoint memset (m : memory) (dest : nat) (ch : Byte.byte) (count : nat)
  : outcome (memory * list nat) :=
  match count with
  | O => done (m, [])
  | S n =>
      match store m dest ch with
      | None => undefined (overrun dest)
      | Some m1 =>
          match memset m1 (S dest) ch n with
          | done (m', ws) => done (m', dest :: ws)
          | undefined f => undefined f
          end
      end
  end.

Definition with_pbuf (p : option memory) (e : encoder) : encoder :=
  mk_encoder (data_cb e) p (input_buffer e) (dims e) (fps_ e)
    (in_registration e) (out_stream e) (session e)
    (bytes_encoded e) (frames_encoded e).

(** What one call of [pbuf_as<T>] did: the pointer it returned (an offset
    from [pbuf->data()]), the offsets [memset] stored to, and the object
    afterwards. *)
Record pbuf_view : Type := mk_view {
  view_ptr : nat;
  view_stores : list nat;
  view_encoder : encoder
}.

(** [pbuf_as<T>()], with [sizeof_T] for [sizeof(T)]: it dereferences [pbuf]
    and passes [sizeof(T)] to [memset] unchecked. *)
Definition pbuf_as (sizeof_T : nat) (e : encoder) : outcome pbuf_view :=
  match pbuf e with
  | None => undefined null_pbuf
  | Some m =>
      match memset m 0 Byte.x00 sizeof_T with
      | done (m', ws) => done (mk_view 0 ws (with_pbuf (Some m') e))
      | undefined f => undefined f
      end
  end.

(** The [n] bytes of the object at offset [p]. *)
Definition bytes_at (m : memory) (p n : nat) : list Byte.byte :=
  map m (seq p n).

(** The bytes of the [T] a view points to. *)
Definition struct_bytes (sizeof_T : nat) (v : pbuf_view) : list Byte.byte :=
  match pbuf (view_encoder v) with
  | None => []
  | Some m => bytes_at m (view_ptr v) sizeof_T
  end.

(** The array [m] with the [n] bytes from offset [d] set to [c]. *)
Definition cleared (m : memory) (d n : nat) (c : Byte.byte) : memory :=
  fun a => if ((d <=? a) && (a <? d + n))%nat then c else m a.

(** A store stays inside the scratch allocation. *)
Definition in_param_buffer (off : nat) : Prop := (off < param_buffer_size)%nat.

(** *** A sequence of observer calls *)

Inductive observer : Set :=
| call_buffer | call_width | call_height | call_fps
| call_fps_exact | call_total_bytes | call_total_frames | call_time.

Inductive observation : Set :=
| seen_handle (h : handle)
| seen_uint (n : Z)
| seen_uint2 (r : uint2)
| seen_double (f : float).

Definition observe (o : observer) : method observation :=
  match o with
  | call_buffer => (h <- buffer ;; ret (seen_handle h))
  | call_width => (n <- width ;; ret (seen_uint n))
  | call_height => (n <- height ;; ret (seen_uint n))
  | call_fps => (f <- fps ;; ret (seen_double f))
  | call_fps_exact => (r <- fps_exact ;; ret (seen_uint2 r))
  | call_total_bytes => (n <- total_bytes ;; ret (seen_uint n))
  | call_total_frames => (n <- total_frames ;; ret (seen_uint n))
  | call_time => (f <- time ;; ret (seen_double f))
  end%method.

Fixpoint observe_all (os : list observer) : method (list observation) :=
  match os with
  | [] => ret []
  | o :: rest =>
      (v <- observe o ;; vs <- observe_all rest ;; ret (v :: vs))%method
  end.

(** The value of a finite [double] as a rational, exactly. *)
Definition double_to_Q (f : float) : option Q :=
  match Prim2SF f with
  | S754_zero _ => Some 0%Q
  | S754_finite s m e =>
      let v := if s then Z.neg m else Z.pos m in
      Some (if 0 <=? e then inject_Z (v * 2 ^ e)
            else Qmake v (Pos.pow 2 (Z.to_pos (- e))))
  | _ => None
  end.

(** *** The defaulted move operations

    [encoder(encoder&&) = default] and [operator=(encoder&&) = default] move
    member by member: moving a [unique_ptr] nulls the source, moving a
    pointer or an integer copies it.  A moved-from [std::move_only_function]
    is left unspecified by the standard; it is taken to be empty, and no
    release depends on it. *)

Definition moved_from (e : encoder) : encoder :=
  with_pbuf None (with_data_cb None e).

(** The new object and the source afterwards. *)
Definition move_construct (src : encoder) : encoder * encoder :=
  (src, moved_from src).

(** What the SDK and the allocator are asked to give back. *)
Inductive sdk_release : Set :=
| unregister_buffer (h : handle)
| close_stream (h : handle)
| destroy_session (h : handle)
| release_scratch.

(** Assigning to a [unique_ptr] deletes what it owned. *)
Definition reset_pbuf (e : encoder) : list sdk_release :=
  match pbuf e with
  | Some _ => [release_scratch]
  | None => []
  end.

(** [dst = std::move(src)] for two distinct objects: the target, the source
    afterwards, and what the assignment released.  The target's old handles
    are overwritten, not released. *)
Definition move_assign (dst src : encoder)
  : encoder * encoder * list sdk_release :=
  (src, moved_from src, reset_pbuf dst).




(** ** The session, modelled from the specification *)

(** Modelled from the spec: the destructor [~encoder()], whose body is not in
    the header.  "Destroyed by: unregistering the buffer, closing the output
    stream, destroying the session, releasing the scratch buffer - in that
    order"; the last step is the destructor of the member [pbuf]. *)
Definition destroy (e : encoder) : list sdk_release :=
  [unregister_buffer (in_registration e);
   close_stream (out_stream e);
   destroy_session (session e)] ++ reset_pbuf e.

(** What the hardware SDK hands out when a session is opened. *)
Record sdk_grant : Set := mk_grant {
  new_input_buffer : handle;
  new_registration : handle;
  new_stream : handle;
  new_session : handle
}.

(** Modelled from the spec: the constructor, whose body is not in the header
    ([open] of the Session Manager).  It "validates dimensions and frame rate
    are strictly positive" and fails if the device context is invalid or the
    hardware refuses ([hw] is [None]). *)
Definition open (d r : uint2) (c : codec) (ctx : handle)
    (cb : data_callback_t) (hw : option sdk_grant) : option encoder :=
  if (0 <? x d) && (0 <? y d) && (0 <? x r) && (0 <? y r)
     && negb (ctx =? nullptr)
  then
    match hw with
    | Some g =>
        Some (mk_encoder cb (Some fresh_param_buffer) (new_input_buffer g)
                d r (new_registration g) (new_stream g) (new_session g) 0 0)
    | None => None
    end
  else None.

(** Modelled from the spec: the hardware SDK, "a capability providing
    [...] encode, flush [...] primitives with their own success/failure
    codes".  Its answer to one encode or drain call says whether it accepted
    the call, and which completed bitstream payloads can then be retrieved,
    in order; any number of them, since there is no "1:1 submit-to-chunk
    mapping". *)
Record hw_reply : Set := mk_reply {
  accepted : bool;
  output : list (list Byte.byte)
}.

(** Modelled from the spec: the session together with what lies outside the
    object, namely the "running chunk counter" of the delivery path (the
    class has no member for it) and the log of callback invocations, oldest
    first. *)
Record world : Type := mk_world {
  enc : encoder;
  chunks_out : Z;
  delivered : list (nat * chunk_info)
}.

Definition with_counters (b f : Z) (e : encoder) : encoder :=
  mk_encoder (data_cb e) (pbuf e) (input_buffer e) (dims e) (fps_ e)
    (in_registration e) (out_stream e) (session e) b f.

Definition fresh (e : encoder) : world := mk_world e 0 [].

Section Session.

(** Ticks per second of the time unit of [timestamp] and [duration]
    (the spec suggests nanoseconds). *)
Variable time_base : Z.

(** Modelled from the spec: "timestamp = (frames_encoded_so_far) /
    frame_rate, expressed in a consistent time unit", frame rate [x/y].
    The frames encoded so far are the member [frames_encoded], the count
    that [total_frames()] returns. *)
Definition frame_time (n : Z) (r : uint2) : Z :=
  wrap64 (n * (time_base * y r) / x r).

(** Modelled from the spec: "duration = 1 / frame_rate in the same unit". *)
Definition frame_period (r : uint2) : Z :=
  wrap64 (time_base * y r / x r).

(** Modelled from the spec: the Chunk Delivery Path for one completed
    payload.  It builds the chunk ("index = running chunk counter"), invokes
    the active callback once and adds the payload's length to the byte
    counter.  Invoking an empty [std::move_only_function] is undefined, so
    there is no result then. *)
Definition deliver (payload : list Byte.byte) (w : world) : option world :=
  match data_cb (enc w) with
  | None => None
  | Some cb =>
      let e := enc w in
      let c := mk_chunk payload (chunks_out w)
                 (frame_time (frames_encoded e) (fps_ e))
                 (frame_period (fps_ e)) in
      Some (mk_world
              (with_counters
                 (wrap64 (bytes_encoded e + Z.of_nat (length payload)))
                 (frames_encoded e) e)
              (wrap32 (chunks_out w + 1))
              (delivered w ++ [(cb, c)]))
  end.

(** Modelled from the spec: poll the output stream, one delivery per
    completed payload, in order. *)
Fixpoint drain (payloads : list (list Byte.byte)) (w : world) : option world :=
  match payloads with
  | [] => Some w
  | p :: rest =>
      match deliver p w with
      | Some w' => drain rest w'
      | None => None
      end
  end.

(** Modelled from the spec: [submit_frame], declared in the header without a
    body.  One encode call; on rejection [false] with the counters as they
    were; on acceptance the completed chunks are delivered and the frame
    counter goes up by one, in the order of the spec's data flow ("issues
    hardware encode call -> [...] invokes the callback -> counters
    update"). *)
Definition submit_frame (flag : frame_flag) (r : hw_reply) (w : world)
  : option (bool * world) :=
  if accepted r then
    match drain (output r) w with
    | Some w' =>
        let e := enc w' in
        Some (true,
              mk_world
                (with_counters (bytes_encoded e)
                   (wrap32 (frames_encoded e + 1)) e)
                (chunks_out w') (delivered w'))
    | None => None
    end
  else Some (false, w).

(** Modelled from the spec: [flush], declared in the header without a body.
    One drain call; on failure [false] with the session as it was; on
    success all pending chunks are delivered and then the counters are
    reset. *)
Definition flush (r : hw_reply) (w : world) : option (bool * world) :=
  if accepted r then
    match drain (output r) w with
    | Some w' =>
        Some (true, mk_world (with_counters 0 0 (enc w')) 0 (delivered w'))
    | None => None
    end
  else Some (false, w).

(** *** Sequences of calls *)

Inductive call : Set :=
| call_submit_frame (flag : frame_flag) (r : hw_reply)
| call_flush (r : hw_reply)
| call_set_callback (cb : data_callback_t).

Definition step (c : call) (w : world) : option world :=
  match c with
  | call_submit_frame flag r => option_map snd (submit_frame flag r w)
  | call_flush r => option_map snd (flush r w)
  | call_set_callback cb =>
      Some (mk_world (exec (set_callback cb) (enc w))
              (chunks_out w) (delivered w))
  end.

Fixpoint run (cs : list call) (w : world) : option world :=
  match cs with
  | [] => Some w
  | c :: rest =>
      match step c w with
      | Some w' => run rest w'
      | None => None
      end
  end.

End Session.

(** A call that drives the hardware (and so may deliver chunks). *)
Definition drives_hardware (c : call) : bool :=
  match c with
  | call_set_callback _ => false
  | _ => true
  end.

Definition is_submit (c : call) : bool :=
  match c with
  | call_submit_frame _ _ => true
  | _ => false
  end.

(** The payloads the hardware completed during a sequence of calls. *)
Definition completed (c : call) : list (list Byte.byte) :=
  match c with
  | call_submit_frame _ r | call_flush r =>
      if accepted r then output r else []
  | call_set_callback _ => []
  end.


(** What a callable has received so far. *)
Definition received (cb : nat) (w : world) : list chunk_info :=
  map snd (filter (fun d => Nat.eqb (fst d) cb) (delivered w)).

(** *** The timestamp law, as the specification words it *)



(** The members that identify the open session: the handles, the
    dimensions and the frame rate. *)
Definition same_session (e e' : encoder) : Prop :=
  input_buffer e' = input_buffer e /\
  dims e' = dims e /\
  fps_ e' = fps_ e /\
  in_registration e' = in_registration e /\
  out_stream e' = out_stream e /\
  session e' = session e.


(** The members the observers read. *)
Definition observed_members (e : encoder) : handle * uint2 * uint2 * Z * Z :=
  (input_buffer e, dims e, fps_ e, bytes_encoded e, frames_encoded e).

(** *** Concrete sessions *)

Definition nanoseconds : Z := 1000000000.

(** Scenario A: 1920x1080 at 30000/1001 frames per second, H.264. *)
Definition scenario_grant : sdk_grant := mk_grant 1 2 3 4.

Definition scenario_encoder : encoder :=
  mk_encoder (Some 0%nat) (Some fresh_param_buffer) 1 (mk_uint2 1920 1080)
    (mk_uint2 30000 1001) 2 3 4 0 0.

(** A second session, with handles of its own. *)
Definition other_encoder : encoder :=
  mk_encoder (Some 1%nat) (Some fresh_param_buffer) 11 (mk_uint2 1280 720)
    (mk_uint2 60 1) 12 13 14 0 0.

(** A buffer still holding a previous call's fields. *)
Definition stale_encoder : encoder :=
  mk_encoder (Some 0%nat) (Some (fun _ => Byte.xff)) 1 (mk_uint2 1920 1080)
    (mk_uint2 30000 1001) 2 3 4 0 0.

Definition payload_a : list Byte.byte := [Byte.x00; Byte.x00; Byte.x01; Byte.x65].
Definition payload_b : list Byte.byte := [Byte.x00; Byte.x00; Byte.x01; Byte.x41].

(** Hardware that keeps two frames back and yields both chunks when it is
    drained. *)
Definition batched_cycle : list call :=
  [call_submit_frame none (mk_reply true []);
   call_submit_frame none (mk_reply true []);
   call_flush (mk_reply true [payload_a; payload_b])].

(** Hardware that answers every submission with its chunk. *)
Definition lockstep_cycle : list call :=
  [call_submit_frame idr (mk_reply true [payload_a]);
   call_submit_frame none (mk_reply false []);
   call_submit_frame none (mk_reply true [payload_b])].




(** ** The observers *)

Section Observers.

Lemma observe_keeps_encoder (o : observer) (e : encoder) :
  exec (observe o) e = e.
Proof. destruct o; reflexivity. Qed.

Lemma exec_bind {A B : Type} (m : method A) (k : A -> method B) (e : encoder) :
  exec (bind m k) e = exec (k (eval m e)) (exec m e).
Proof. unfold exec, eval, bind. destruct (m e); reflexivity. Qed.

(** C9: calling [buffer], [width], [height], [fps], [fps_exact],
    [total_bytes], [total_frames] and [time], any number of times and in any
    order, hands back the encoder with every member as it was. *)
Theorem observers_leave_encoder_unchanged :
  forall (os : list observer) (e : encoder), exec (observe_all os) e = e.
Proof.
  induction os as [|o rest IH]; intro e.
  - reflexivity.
  - cbn [observe_all]. rewrite exec_bind, observe_keeps_encoder.
    rewrite exec_bind, IH. reflexivity.
Qed.

End Observers.

(** ** The scratch buffer *)

Section Scratch.

Lemma store_inside (m : memory) (a : nat) (b : Byte.byte) :
  (a < param_buffer_size)%nat ->
  store m a b = Some (fun a' => if Nat.eqb a' a then b else m a').
Proof.
  intro H. unfold store. now destruct (Nat.ltb_spec a param_buffer_size); [|lia].
Qed.

Lemma store_outside (m : memory) (a : nat) (b : Byte.byte) :
  (param_buffer_size <= a)%nat -> store m a b = None.
Proof.
  intro H. unfold store. now destruct (Nat.ltb_spec a param_buffer_size); [lia|].
Qed.

(** Inside the array [memset] is defined, stores to [d .. d+n-1] in order,
    and leaves every byte in that range at [c] and every other byte as it
    was. *)
Lemma memset_inside (n : nat) :
  forall m d c,
    (d + n <= param_buffer_size)%nat ->
    exists m',
      memset m d c n = done (m', seq d n) /\
      forall a, m' a = cleared m d n c a.
Proof.
  induction n as [|n IH]; intros m d c Hb; cbn [memset seq].
  - exists m. split; [reflexivity|]. intro a. unfold cleared.
    destruct (Nat.leb_spec d a), (Nat.ltb_spec a (d + 0)); cbn; try reflexivity; lia.
  - rewrite store_inside by lia.
    destruct (IH (fun a' => if Nat.eqb a' d then c else m a') (S d) c)
      as (m' & Hm & Hbytes); [lia|].
    rewrite Hm. exists m'. split; [reflexivity|]. intro a.
    rewrite Hbytes. unfold cleared.
    destruct (Nat.leb_spec (S d) a), (Nat.ltb_spec a (S d + n)),
      (Nat.leb_spec d a), (Nat.ltb_spec a (d + S n)), (Nat.eqb_spec a d);
      cbn; try reflexivity; lia.
Qed.

(** Past the array [memset] is undefined, at the first offset behind it. *)
Lemma memset_overrun (n : nat) :
  forall m d c,
    (d <= param_buffer_size < d + n)%nat ->
    memset m d c n = undefined (overrun param_buffer_size).
Proof.
  induction n as [|n IH]; intros m d c Hb; cbn [memset]; [lia|].
  destruct (Nat.eq_dec d param_buffer_size) as [->|Hne].
  - now rewrite store_outside by lia.
  - rewrite store_inside by lia. now rewrite IH by lia.
Qed.

Lemma bytes_at_cleared (m m' : memory) (c : Byte.byte) (n : nat) :
  (forall a, m' a = cleared m 0 n c a) ->
  bytes_at m' 0 n = repeat c n.
Proof.
  intro H. unfold bytes_at.
  assert (Hk : forall k, (k <= n)%nat -> map m' (seq 0 k) = repeat c k).
  { induction k as [|k IHk]; intro Hle.
    - reflexivity.
    - rewrite seq_S, map_app, IHk by lia. cbn [map Nat.add].
      rewrite H. unfold cleared.
      destruct (Nat.leb_spec 0 k), (Nat.ltb_spec k (0 + n)); try lia.
      cbn. change [c] with (repeat c 1). rewrite <- repeat_app.
      now rewrite Nat.add_1_r. }
  apply Hk. lia.
Qed.

Lemma pbuf_as_inside (sizeof_T : nat) (e : encoder) (m : memory) :
  pbuf e = Some m ->
  (sizeof_T <= param_buffer_size)%nat ->
  exists m',
    pbuf_as sizeof_T e =
      done (mk_view 0 (seq 0 sizeof_T) (with_pbuf (Some m') e)) /\
    forall a, m' a = cleared m 0 sizeof_T Byte.x00 a.
Proof.
  intros Hp Hb. unfold pbuf_as. rewrite Hp.
  destruct (memset_inside sizeof_T m 0%nat Byte.x00) as (m' & Hm & Hbytes);
    [lia|].
  rewrite Hm. exists m'. split; [reflexivity|exact Hbytes].
Qed.

Lemma pbuf_as_overrun (sizeof_T : nat) (e : encoder) (m : memory) :
  pbuf e = Some m ->
  (param_buffer_size < sizeof_T)%nat ->
  pbuf_as sizeof_T e = undefined (overrun param_buffer_size).
Proof.
  intros Hp Hb. unfold pbuf_as. rewrite Hp.
  now rewrite memset_overrun by lia.
Qed.

(** C7, for structures that fit: whatever the scratch buffer held before,
    when [sizeof(T) <= 2048] and [pbuf] is not null, the structure that
    [pbuf_as<T>] returns has all of its [sizeof(T)] bytes equal to zero. *)
Theorem pbuf_as_zeroes_struct :
  forall (sizeof_T : nat) (e : encoder) (m : memory),
    pbuf e = Some m ->
    (sizeof_T <= 2048)%nat ->
    exists v, pbuf_as sizeof_T e = done v /\
              struct_bytes sizeof_T v = repeat Byte.x00 sizeof_T.
Proof.
  intros sizeof_T e m Hp Hb.
  destruct (pbuf_as_inside sizeof_T e m Hp Hb) as (m' & Hv & Hbytes).
  eexists. split; [exact Hv|].
  unfold struct_bytes. cbn. now apply (bytes_at_cleared m).
Qed.

Lemma pbuf_as_zeroes_struct_witness :
  exists v, pbuf_as 16 stale_encoder = done v /\
            struct_bytes 16 v = repeat Byte.x00 16.
Proof.
  apply (pbuf_as_zeroes_struct 16 stale_encoder (fun _ => Byte.xff)).
  - reflexivity.
  - apply Nat.leb_le. reflexivity.
Defined.

(** C7, as the claim words it ("for every type T"), fails for a structure
    of 2049 bytes: [memset] stores past the end of the 2048-byte array, the
    call is undefined and returns no structure at all. *)
Lemma pbuf_as_oversized_struct_is_undefined :
  pbuf_as 2049 stale_encoder = undefined (overrun 2048) /\
  ~ (exists v, pbuf_as 2049 stale_encoder = done v /\
               struct_bytes 2049 v = repeat Byte.x00 2049).
Proof.
  assert (H : pbuf_as 2049 stale_encoder = undefined (overrun 2048)).
  { apply (pbuf_as_overrun 2049 stale_encoder (fun _ => Byte.xff));
      [reflexivity|]. apply Nat.ltb_lt. reflexivity. }
  split; [exact H|]. intros (v & Hv & _). rewrite H in Hv. discriminate.
Qed.

Lemma Forall_seq_lt (n bound : nat) :
  Forall (fun off => (off < bound)%nat) (seq 0 n) <-> (n <= bound)%nat.
Proof.
  rewrite Forall_forall. split.
  - intro H. destruct n as [|n]; [lia|].
    specialize (H n). rewrite in_seq in H. lia.
  - intros Hn off Hoff. rewrite in_seq in Hoff. lia.
Qed.

(** C10: [pbuf_as<T>] passes [sizeof(T)] to [memset] unchecked.  The call
    is defined exactly when [sizeof(T) <= 2048].  Then it stores to the
    offsets [0 .. sizeof(T)-1], all inside the 2048-byte scratch buffer, and
    each of these bytes of the buffer is zero afterwards.  Otherwise the
    stores run past the buffer: the call is undefined at offset 2048, the
    first byte behind it. *)
Theorem pbuf_as_in_bounds_iff :
  forall (sizeof_T : nat) (e : encoder) (m : memory),
    pbuf e = Some m ->
    ((exists v, pbuf_as sizeof_T e = done v) <-> (sizeof_T <= 2048)%nat) /\
    (forall v,
       pbuf_as sizeof_T e = done v ->
       view_stores v = seq 0 sizeof_T /\
       Forall in_param_buffer (view_stores v) /\
       exists m',
         pbuf (view_encoder v) = Some m' /\
         forall off, In off (view_stores v) -> m' off = Byte.x00) /\
    ((2048 < sizeof_T)%nat ->
     pbuf_as sizeof_T e = undefined (overrun 2048)).
Proof.
  intros sizeof_T e m Hp.
  destruct (Nat.le_gt_cases sizeof_T param_buffer_size) as [Hb|Hb].
  - destruct (pbuf_as_inside sizeof_T e m Hp Hb) as (m' & Hv & Hbytes).
    split; [|split].
    + split; [intros _; exact Hb|intros _; eexists; exact Hv].
    + intros v Hdone. rewrite Hv in Hdone. injection Hdone as <-.
      cbn [view_stores view_encoder with_pbuf pbuf].
      split; [reflexivity|].
      split; [now apply (Forall_seq_lt sizeof_T param_buffer_size)|].
      exists m'. split; [reflexivity|]. intros off Hoff.
      apply in_seq in Hoff. rewrite Hbytes. unfold cleared.
      destruct (Nat.leb_spec 0 off), (Nat.ltb_spec off (0 + sizeof_T));
        cbn; try reflexivity; lia.
    + intro Hgt. unfold param_buffer_size in Hb. lia.
  - pose proof (pbuf_as_overrun sizeof_T e m Hp Hb) as Hu.
    split; [|split].
    + split.
      * intros (v & Hv). rewrite Hu in Hv. discriminate.
      * intro Hle. unfold param_buffer_size in Hb. lia.
    + intros v Hv. rewrite Hu in Hv. discriminate.
    + intros _. exact Hu.
Qed.

Lemma pbuf_as_in_bounds_iff_witness :
  (((exists v, pbuf_as 2049 stale_encoder = done v) <-> (2049 <= 2048)%nat) /\
   (forall v,
      pbuf_as 2049 stale_encoder = done v ->
      view_stores v = seq 0 2049 /\
      Forall in_param_buffer (view_stores v) /\
      exists m',
        pbuf (view_encoder v) = Some m' /\
        forall off, In off (view_stores v) -> m' off = Byte.x00) /\
   ((2048 < 2049)%nat ->
    pbuf_as 2049 stale_encoder = undefined (overrun 2048))) /\
  (((exists v, pbuf_as 16 stale_encoder = done v) <-> (16 <= 2048)%nat) /\
   (forall v,
      pbuf_as 16 stale_encoder = done v ->
      view_stores v = seq 0 16 /\
      Forall in_param_buffer (view_stores v) /\
      exists m',
        pbuf (view_encoder v) = Some m' /\
        forall off, In off (view_stores v) -> m' off = Byte.x00) /\
   ((2048 < 16)%nat ->
    pbuf_as 16 stale_encoder = undefined (overrun 2048))).
Proof.
  split.
  - apply (pbuf_as_in_bounds_iff 2049 stale_encoder (fun _ => Byte.xff)).
    reflexivity.
  - apply (pbuf_as_in_bounds_iff 16 stale_encoder (fun _ => Byte.xff)).
    reflexivity.
Defined.

End Scratch.

(** ** Elapsed time *)

Section Time.

Lemma time_unfold (e : encoder) :
  eval time e =
  PrimFloat.div (double_of_uint32 (frames_encoded e))
    (PrimFloat.div (double_of_uint32 (x (fps_ e)))
       (double_of_uint32 (y (fps_ e)))).
Proof. reflexivity. Qed.

(** C8: [time()] is [total_frames()] divided by [fps()], and [fps()] is the
    numerator divided by the denominator, both in [double] arithmetic; at
    30000/1001 frames per second with 30 frames counted, [time()] is a
    finite [double] within [10^-15] of 1.001 seconds. *)
Theorem time_is_frames_over_fps :
  forall e : encoder,
    eval time e =
      PrimFloat.div (double_of_uint32 (eval total_frames e)) (eval fps e) /\
    eval fps e =
      PrimFloat.div (double_of_uint32 (x (eval fps_exact e)))
        (double_of_uint32 (y (eval fps_exact e))) /\
    (eval fps_exact e = mk_uint2 30000 1001 ->
     eval total_frames e = 30 ->
     exists q : Q,
       double_to_Q (eval time e) = Some q /\
       (Qabs (q - (1001 # 1000)) < 1 # 1000000000000000)%Q).
Proof.
  intro e. split; [reflexivity|]. split; [reflexivity|].
  intros Hr Hn. rewrite time_unfold.
  change (fps_ e = mk_uint2 30000 1001) in Hr.
  change (frames_encoded e = 30) in Hn.
  rewrite Hr, Hn. eexists. split.
  - vm_compute. reflexivity.
  - vm_compute. reflexivity.
Qed.

Lemma time_is_frames_over_fps_witness :
  exists q : Q,
    double_to_Q (eval time (with_counters 0 30 stale_encoder)) = Some q /\
    (Qabs (q - (1001 # 1000)) < 1 # 1000000000000000)%Q.
Proof.
  apply (time_is_frames_over_fps (with_counters 0 30 stale_encoder));
    reflexivity.
Defined.

End Time.

(** ** Submission, flush and delivery *)

Section SessionFacts.

Variable time_base : Z.

Lemma with_counters_twice (b f b' f' : Z) (e : encoder) :
  with_counters b' f' (with_counters b f e) = with_counters b' f' e.
Proof. reflexivity. Qed.

Lemma with_counters_same (e : encoder) :
  with_counters (bytes_encoded e) (frames_encoded e) e = e.
Proof. destruct e; reflexivity. Qed.

Lemma same_session_counters (b f : Z) (e : encoder) :
  same_session e (with_counters b f e).
Proof. repeat split. Qed.

Lemma same_session_refl (e : encoder) : same_session e e.
Proof. repeat split. Qed.

Lemma same_session_trans (e1 e2 e3 : encoder) :
  same_session e1 e2 -> same_session e2 e3 -> same_session e1 e3.
Proof. unfold same_session. intuition congruence. Qed.

(** With a callable in the slot, draining delivers every payload once, in
    order, to that callable, stamped with the frame counter as it stands,
    and touches the byte counter only. *)
Lemma drain_spec (ps : list (list Byte.byte)) :
  forall (w : world) (cb : nat),
    data_cb (enc w) = Some cb ->
    exists w' b cs,
      drain time_base ps w = Some w' /\
      enc w' = with_counters b (frames_encoded (enc w)) (enc w) /\
      delivered w' = delivered w ++ map (pair cb) cs /\
      map data cs = ps /\
      Forall (fun c => timestamp c =
                frame_time time_base (frames_encoded (enc w)) (fps_ (enc w)))
        cs.
Proof.
  induction ps as [|p rest IH]; intros w cb Hcb; cbn [drain].
  - exists w, (bytes_encoded (enc w)), []. rewrite with_counters_same.
    cbn. rewrite app_nil_r. repeat split. constructor.
  - unfold deliver. rewrite Hcb.
    match goal with |- context [drain _ rest ?w1] => set (w1' := w1) end.
    destruct (IH w1' cb Hcb) as (w' & b & cs & Hd & He & Hl & Hm & Hts).
    exists w', b.
    eexists (mk_chunk p (chunks_out w) _ _ :: cs).
    split; [exact Hd|]. split; [exact He|]. split; [|split].
    + rewrite Hl. subst w1'. cbn. now rewrite <- app_assoc.
    + cbn. now rewrite Hm.
    + constructor; [reflexivity|exact Hts].
Qed.

Lemma drain_nil_output (w : world) : drain time_base [] w = Some w.
Proof. reflexivity. Qed.

(** A call that drives the hardware, made with a callable in the slot. *)
Lemma step_drives_hardware (c : call) (w : world) (cb : nat) :
  drives_hardware c = true ->
  data_cb (enc w) = Some cb ->
  exists w' b f cs,
    step time_base c w = Some w' /\
    enc w' = with_counters b f (enc w) /\
    delivered w' = delivered w ++ map (pair cb) cs /\
    map data cs = completed c.
Proof.
  intros Hc Hcb. destruct c as [flag r|r|cb']; [| |discriminate];
    cbn [step completed]; unfold submit_frame, flush;
    (destruct (accepted r);
     [ destruct (drain_spec (output r) w cb Hcb)
         as (w1 & b & cs & Hd & He & Hl & Hm & _);
       rewrite Hd; cbn [option_map snd enc delivered];
       do 3 eexists; exists cs; split; [reflexivity|];
       rewrite He; split; [reflexivity|]; split; assumption
     | exists w, (bytes_encoded (enc w)), (frames_encoded (enc w)), [];
       rewrite with_counters_same; cbn; now rewrite app_nil_r ]).
Qed.

Lemma run_drives_hardware (cs : list call) :
  forall (w : world) (cb : nat),
    forallb drives_hardware cs = true ->
    data_cb (enc w) = Some cb ->
    exists w' b f chunks,
      run time_base cs w = Some w' /\
      enc w' = with_counters b f (enc w) /\
      delivered w' = delivered w ++ map (pair cb) chunks /\
      map data chunks = flat_map completed cs.
Proof.
  induction cs as [|c rest IH]; intros w cb Hcs Hcb; cbn [run flat_map].
  - exists w, (bytes_encoded (enc w)), (frames_encoded (enc w)), [].
    rewrite with_counters_same. cbn. now rewrite app_nil_r.
  - cbn [forallb] in Hcs. apply andb_prop in Hcs as [Hc Hrest].
    destruct (step_drives_hardware c w cb Hc Hcb)
      as (w1 & b1 & f1 & cs1 & Hs & He1 & Hl1 & Hm1).
    rewrite Hs.
    assert (Hcb1 : data_cb (enc w1) = Some cb) by (rewrite He1; exact Hcb).
    destruct (IH w1 cb Hrest Hcb1) as (w' & b & f & cs2 & Hr & He & Hl & Hm).
    exists w', b, f, (cs1 ++ cs2). split; [exact Hr|]. split.
    + rewrite He, He1. reflexivity.
    + split.
      * rewrite Hl, Hl1, map_app, app_assoc. reflexivity.
      * rewrite map_app, Hm1, Hm. reflexivity.
Qed.

Lemma step_same_session (c : call) (w w' : world) :
  step time_base c w = Some w' -> same_session (enc w) (enc w').
Proof.
  assert (Hdrain : forall ps v v', drain time_base ps v = Some v' ->
                                   same_session (enc v) (enc v')).
  { induction ps as [|p rest IH]; intros v v' H; cbn [drain] in H.
    - injection H as <-. apply same_session_refl.
    - unfold deliver in H. destruct (data_cb (enc v)); [|discriminate].
      apply IH in H. cbn [enc] in H.
      eapply same_session_trans; [apply same_session_counters|exact H]. }
  destruct c as [flag r|r|cb]; cbn [step]; unfold submit_frame, flush.
  - destruct (accepted r).
    + destruct (drain time_base (output r) w) as [w1|] eqn:Hd; [|discriminate].
      cbn. intro H. injection H as <-. cbn [enc].
      eapply same_session_trans;
        [apply (Hdrain _ _ _ Hd)|apply same_session_counters].
    + cbn. intro H. injection H as <-. apply same_session_refl.
  - destruct (accepted r).
    + destruct (drain time_base (output r) w) as [w1|] eqn:Hd; [|discriminate].
      cbn. intro H. injection H as <-. cbn [enc].
      eapply same_session_trans;
        [apply (Hdrain _ _ _ Hd)|apply same_session_counters].
    + cbn. intro H. injection H as <-. apply same_session_refl.
  - intro H. injection H as <-. repeat split.
Qed.

Lemma run_same_session (cs : list call) :
  forall w w', run time_base cs w = Some w' -> same_session (enc w) (enc w').
Proof.
  induction cs as [|c rest IH]; intros w w' H; cbn [run] in H.
  - injection H as <-. apply same_session_refl.
  - destruct (step time_base c w) as [w1|] eqn:Hs; [|discriminate].
    eapply same_session_trans; [apply (step_same_session _ _ _ Hs)|].
    now apply IH.
Qed.

(** C2: with a callable in the slot, [submit_frame] returns what the
    hardware answered.  On acceptance the frame counter is one more than
    before (in [uint32_t] arithmetic, so one more outright below
    [2^32 - 1]); on rejection the world is as it was: both counters keep
    their values and the handles of the open session are untouched. *)
Theorem submit_frame_counts_accepted_only :
  forall (flag : frame_flag) (r : hw_reply) (w : world) (cb : nat),
    data_cb (enc w) = Some cb ->
    exists w',
      submit_frame time_base flag r w = Some (accepted r, w') /\
      same_session (enc w) (enc w') /\
      (accepted r = true ->
       eval total_frames (enc w') = wrap32 (eval total_frames (enc w) + 1) /\
       (0 <= eval total_frames (enc w) < 2 ^ 32 - 1 ->
        eval total_frames (enc w') = eval total_frames (enc w) + 1)) /\
      (accepted r = false ->
       w' = w /\
       eval total_frames (enc w') = eval total_frames (enc w) /\
       eval total_bytes (enc w') = eval total_bytes (enc w)).
Proof.
  intros flag r w cb Hcb. unfold submit_frame.
  destruct (accepted r) eqn:Hacc.
  - destruct (drain_spec (output r) w cb Hcb)
      as (w1 & b & cs & Hd & He & Hl & Hm & _).
    rewrite Hd. eexists. split; [reflexivity|]. cbn [enc].
    rewrite He. split; [repeat split|].
    split; [|discriminate]. intros _.
    change (wrap32 (frames_encoded (enc w) + 1) =
            wrap32 (frames_encoded (enc w) + 1) /\
            (0 <= frames_encoded (enc w) < 2 ^ 32 - 1 ->
             wrap32 (frames_encoded (enc w) + 1) = frames_encoded (enc w) + 1)).
    split; [reflexivity|]. intro Hrange. unfold wrap32.
    apply Z.mod_small. lia.
  - exists w. split; [reflexivity|]. split; [apply same_session_refl|].
    split; [discriminate|]. intros _. repeat split.
Qed.

(** C1: from a session with a callable in the slot, after any sequence of
    submissions, a flush that the hardware accepts returns [true], hands
    every pending payload to the callable, once and in order and stamped
    with the frame count from before the reset, and leaves [total_frames()]
    and [total_bytes()] at zero. *)
Theorem flush_delivers_then_resets :
  forall (w0 : world) (cb : nat) (subs : list call) (r : hw_reply),
    data_cb (enc w0) = Some cb ->
    forallb is_submit subs = true ->
    accepted r = true ->
    exists w w' chunks,
      run time_base subs w0 = Some w /\
      flush time_base r w = Some (true, w') /\
      delivered w' = delivered w ++ map (pair cb) chunks /\
      map data chunks = output r /\
      Forall (fun c => timestamp c =
                frame_time time_base (eval total_frames (enc w))
                  (eval fps_exact (enc w)))
        chunks /\
      eval total_frames (enc w') = 0 /\
      eval total_bytes (enc w') = 0.
Proof.
  intros w0 cb subs r Hcb Hsubs Hacc.
  assert (Hhw : forallb drives_hardware subs = true).
  { rewrite forallb_forall in *. intros c Hc. specialize (Hsubs c Hc).
    destruct c; [reflexivity|discriminate|discriminate]. }
  destruct (run_drives_hardware subs w0 cb Hhw Hcb)
    as (w & b & f & cs & Hr & He & _ & _).
  assert (Hcbw : data_cb (enc w) = Some cb) by (rewrite He; exact Hcb).
  destruct (drain_spec (output r) w cb Hcbw)
    as (w1 & b1 & chunks & Hd & He1 & Hl & Hm & Hts).
  exists w. eexists. exists chunks. split; [exact Hr|].
  unfold flush. rewrite Hacc, Hd. split; [reflexivity|].
  cbn [delivered enc]. repeat split; assumption.
Qed.

(** C4: whatever calls of [submit_frame], [flush] and [set_callback] a
    session goes through, [width()], [height()] and [fps_exact()] return
    afterwards what they returned before. *)
Theorem dimensions_and_rate_are_immutable :
  forall (cs : list call) (w w' : world),
    run time_base cs w = Some w' ->
    eval width (enc w') = eval width (enc w) /\
    eval height (enc w') = eval height (enc w) /\
    eval fps_exact (enc w') = eval fps_exact (enc w).
Proof.
  intros cs w w' H. apply run_same_session in H.
  destruct H as (_ & Hd & Hr & _).
  unfold eval, width, height, fps_exact, bind, member, ret. cbn.
  rewrite Hd, Hr. repeat split.
Qed.

(** C6: once [set_callback] has put a new callable into the slot, every
    chunk that later submissions and flushes deliver goes to it, once and
    in order, and any other callable receives nothing more. *)
Theorem set_callback_redirects_delivery :
  forall (w : world) (new : nat) (cs : list call),
    forallb drives_hardware cs = true ->
    exists w' chunks,
      run time_base (call_set_callback (Some new) :: cs) w = Some w' /\
      eval (member data_cb) (enc w') = Some new /\
      delivered w' = delivered w ++ map (pair new) chunks /\
      map data chunks = flat_map completed cs /\
      forall old : nat, old <> new -> received old w' = received old w.
Proof.
  intros w new cs Hcs. cbn [run step].
  match goal with |- context [run _ cs ?w1] => set (w1' := w1) end.
  assert (Hcb : data_cb (enc w1') = Some new) by reflexivity.
  destruct (run_drives_hardware cs w1' new Hcs Hcb)
    as (w' & b & f & chunks & Hr & He & Hl & Hm).
  exists w', chunks. split; [exact Hr|]. split; [now rewrite He|].
  split; [exact Hl|]. split; [exact Hm|].
  intros old Hold. unfold received. rewrite Hl. cbn [delivered w1'].
  rewrite filter_app, map_app.
  assert (Hnone : filter (fun d => Nat.eqb (fst d) old)
                    (map (pair new) chunks) = []).
  { clear -Hold. induction chunks as [|c rest IH]; [reflexivity|].
    cbn. destruct (Nat.eqb_spec new old) as [Heq|_];
      [now elim Hold|exact IH]. }
  rewrite Hnone. cbn. now rewrite app_nil_r.
Qed.

End SessionFacts.

(** ** Timestamps within a flush cycle *)

Section Pacing.

Variable time_base : Z.









End Pacing.

(** ** The laws on concrete sessions *)

Section Scenarios.

Lemma open_scenario :
  open (mk_uint2 1920 1080) (mk_uint2 30000 1001) h264 7 (Some 0%nat)
    (Some scenario_grant) = Some scenario_encoder.
Proof. reflexivity. Qed.

Lemma flush_delivers_then_resets_witness :
  exists w w' chunks,
    run nanoseconds
      [call_submit_frame none (mk_reply true []);
       call_submit_frame idr (mk_reply true [payload_a])]
      (fresh scenario_encoder) = Some w /\
    flush nanoseconds (mk_reply true [payload_b]) w = Some (true, w') /\
    delivered w' = delivered w ++ map (pair 0%nat) chunks /\
    map data chunks = [payload_b] /\
    Forall (fun c => timestamp c =
              frame_time nanoseconds (eval total_frames (enc w))
                (eval fps_exact (enc w)))
      chunks /\
    eval total_frames (enc w') = 0 /\
    eval total_bytes (enc w') = 0.
Proof.
  apply (flush_delivers_then_resets nanoseconds (fresh scenario_encoder) 0%nat
           [call_submit_frame none (mk_reply true []);
            call_submit_frame idr (mk_reply true [payload_a])]
           (mk_reply true [payload_b])); reflexivity.
Defined.

Lemma submit_frame_counts_accepted_only_witness :
  (exists w',
     submit_frame nanoseconds none (mk_reply false []) (fresh scenario_encoder)
       = Some (false, w') /\
     same_session scenario_encoder (enc w') /\
     (false = true ->
      eval total_frames (enc w') = wrap32 (0 + 1) /\
      (0 <= 0 < 2 ^ 32 - 1 -> eval total_frames (enc w') = 0 + 1)) /\
     (false = false ->
      w' = fresh scenario_encoder /\
      eval total_frames (enc w') = 0 /\
      eval total_bytes (enc w') = 0)) /\
  (exists w',
     submit_frame nanoseconds idr (mk_reply true [payload_a])
       (fresh scenario_encoder) = Some (true, w') /\
     same_session scenario_encoder (enc w') /\
     (true = true ->
      eval total_frames (enc w') = wrap32 (0 + 1) /\
      (0 <= 0 < 2 ^ 32 - 1 -> eval total_frames (enc w') = 0 + 1)) /\
     (true = false ->
      w' = fresh scenario_encoder /\
      eval total_frames (enc w') = 0 /\
      eval total_bytes (enc w') = 0)).
Proof.
  split.
  - apply (submit_frame_counts_accepted_only nanoseconds none
             (mk_reply false []) (fresh scenario_encoder) 0%nat).
    reflexivity.
  - apply (submit_frame_counts_accepted_only nanoseconds idr
             (mk_reply true [payload_a]) (fresh scenario_encoder) 0%nat).
    reflexivity.
Defined.

Lemma dimensions_and_rate_are_immutable_witness :
  exists w',
    run nanoseconds (call_set_callback (Some 1%nat) :: batched_cycle)
      (fresh scenario_encoder) = Some w' /\
    eval width (enc w') = 1920 /\
    eval height (enc w') = 1080 /\
    eval fps_exact (enc w') = mk_uint2 30000 1001.
Proof.
  eexists. split; [reflexivity|].
  apply (dimensions_and_rate_are_immutable nanoseconds
           (call_set_callback (Some 1%nat) :: batched_cycle)
           (fresh scenario_encoder)).
  reflexivity.
Defined.

Lemma set_callback_redirects_delivery_witness :
  exists w' chunks,
    run nanoseconds (call_set_callback (Some 1%nat) :: batched_cycle)
      (fresh scenario_encoder) = Some w' /\
    eval (member data_cb) (enc w') = Some 1%nat /\
    delivered w' = [] ++ map (pair 1%nat) chunks /\
    map data chunks = flat_map completed batched_cycle /\
    forall old : nat,
      old <> 1%nat -> received old w' = received old (fresh scenario_encoder).
Proof.
  apply (set_callback_redirects_delivery nanoseconds (fresh scenario_encoder)
           1%nat batched_cycle).
  reflexivity.
Defined.


(** What the lockstep cycle delivers: frame times 0 and 33366666 ns. *)
Lemma lockstep_cycle_chunks :
  option_map (fun w => map snd (delivered w))
    (run nanoseconds lockstep_cycle (fresh scenario_encoder)) =
  Some [mk_chunk payload_a 0 0 33366666;
        mk_chunk payload_b 1 33366666 33366666].
Proof. reflexivity. Qed.


(** Scenario A: thirty accepted submissions, no flush. *)
Lemma scenario_A :
  let w := mk_world (with_counters 0 30 scenario_encoder) 0 [] in
  run nanoseconds (repeat (call_submit_frame none (mk_reply true [])) 30)
    (fresh scenario_encoder) = Some w /\
  eval total_frames (enc w) = 30 /\
  exists q,
    double_to_Q (eval time (enc w)) = Some q /\
    (Qabs (q - (1001 # 1000)) < 1 # 1000000000000000)%Q.
Proof.
  split; [vm_compute; reflexivity|]. split; [reflexivity|].
  eexists. split; vm_compute; reflexivity.
Qed.

End Scenarios.

(** ** Teardown and the move operations *)

Section Teardown.

(** A session that was opened and never moved from gives back each of its
    four resources once, in the order registration, stream, session,
    scratch buffer. *)
Lemma destroy_releases_each_once
    (d r : uint2) (c : codec) (ctx : handle) (cb : data_callback_t)
    (g : sdk_grant) (e : encoder) :
  open d r c ctx cb (Some g) = Some e ->
  destroy e =
    [unregister_buffer (new_registration g); close_stream (new_stream g);
     destroy_session (new_session g); release_scratch] /\
  NoDup (destroy e).
Proof.
  unfold open. destruct (_ && _); [|discriminate].
  intro H. injection H as <-. split; [reflexivity|].
  cbn. repeat constructor; cbn; intuition discriminate.
Qed.

(** The moved-from object as modelled: no callback, no scratch pointer, and
    the three handles still in it. *)
Lemma moved_from_keeps_handles (e : encoder) :
  data_cb (moved_from e) = None /\
  pbuf (moved_from e) = None /\
  in_registration (moved_from e) = in_registration e /\
  out_stream (moved_from e) = out_stream e /\
  session (moved_from e) = session e.
Proof. repeat split. Qed.

(** So destroying the new object and then the moved-from source releases
    the source's handles a second time. *)
Lemma move_construct_then_destroy_both (e : encoder) (m : memory) :
  pbuf e = Some m ->
  (let (b, a) := move_construct e in destroy b ++ destroy a) =
    [unregister_buffer (in_registration e); close_stream (out_stream e);
     destroy_session (session e); release_scratch;
     unregister_buffer (in_registration e); close_stream (out_stream e);
     destroy_session (session e)].
Proof. intro Hp. cbn. unfold destroy, reset_pbuf. rewrite Hp. reflexivity. Qed.

(** C3 on the code: [encoder b(std::move(a))] followed by the destruction
    of [b] and [a] unregisters, closes and destroys the same handles twice;
    [b = std::move(a)] followed by the destruction of both does the same to
    the handles of [a] and never releases the handles [b] held before. *)
Theorem defaulted_move_tears_down_twice :
  (let (b, a) := move_construct scenario_encoder in destroy b ++ destroy a) =
    [unregister_buffer 2; close_stream 3; destroy_session 4; release_scratch;
     unregister_buffer 2; close_stream 3; destroy_session 4] /\
  (let '(b, a, at_assignment) := move_assign other_encoder scenario_encoder in
   at_assignment ++ destroy b ++ destroy a) =
    [release_scratch;
     unregister_buffer 2; close_stream 3; destroy_session 4; release_scratch;
     unregister_buffer 2; close_stream 3; destroy_session 4].
Proof. split; reflexivity. Qed.

End Teardown.

(** ** Further properties of the header's functions *)

Section Header.

Lemma observe_by_members (o : observer) (e e' : encoder) :
  observed_members e = observed_members e' ->
  eval (observe o) e = eval (observe o) e'.
Proof.
  unfold observed_members. intro H. injection H as Hb Hd Hr Hn Hf.
  destruct o; unfold eval, observe, buffer, width, height, fps, fps_exact,
    total_bytes, total_frames, time, bind, member, ret; cbn;
    rewrite ?Hb, ?Hd, ?Hr, ?Hn, ?Hf; reflexivity.
Qed.

Lemma eval_observe_all_cons (o : observer) (rest : list observer) (e : encoder) :
  eval (observe_all (o :: rest)) e =
  eval (observe o) e :: eval (observe_all rest) e.
Proof.
  cbn [observe_all]. unfold eval, bind.
  pose proof (observe_keeps_encoder o e) as H. unfold exec in H.
  destruct (observe o e) as [v e1]. cbn in H. subst e1.
  destruct (observe_all rest e); reflexivity.
Qed.

(** Two encoders that agree on the buffer handle, the dimensions, the frame
    rate and the two counters answer every sequence of observers alike. *)
Lemma observe_all_by_members (os : list observer) (e e' : encoder) :
  observed_members e = observed_members e' ->
  eval (observe_all os) e = eval (observe_all os) e'.
Proof.
  intro H. induction os as [|o rest IH]; [reflexivity|].
  rewrite !eval_observe_all_cons, IH.
  now rewrite (observe_by_members o e e' H).
Qed.

(** X2: when [sizeof(T) <= 2048] and [pbuf] is not null, [pbuf_as<T>]
    returns the start of the scratch buffer, and afterwards a byte of the
    buffer is zero if it lies below [sizeof(T)] and is what it was before
    otherwise: only the structure is cleared, never the rest of the
    buffer. *)
Theorem pbuf_as_clears_prefix_only :
  forall (sizeof_T : nat) (e : encoder) (m : memory),
    pbuf e = Some m ->
    (sizeof_T <= 2048)%nat ->
    exists v m',
      pbuf_as sizeof_T e = done v /\
      view_ptr v = 0%nat /\
      pbuf (view_encoder v) = Some m' /\
      forall a : nat,
        (a < 2048)%nat ->
        m' a = if (a <? sizeof_T)%nat then Byte.x00 else m a.
Proof.
  intros sizeof_T e m Hp Hb.
  destruct (pbuf_as_inside sizeof_T e m Hp Hb) as (m' & Hv & Hbytes).
  do 2 eexists. split; [exact Hv|]. split; [reflexivity|].
  split; [reflexivity|]. intros a _. rewrite Hbytes. unfold cleared.
  destruct (Nat.leb_spec 0 a), (Nat.ltb_spec a (0 + sizeof_T)),
    (Nat.ltb_spec a sizeof_T); cbn; try reflexivity; lia.
Qed.

Lemma pbuf_as_clears_prefix_only_witness :
  exists v m',
    pbuf_as 16 stale_encoder = done v /\
    view_ptr v = 0%nat /\
    pbuf (view_encoder v) = Some m' /\
    forall a : nat,
      (a < 2048)%nat ->
      m' a = if (a <? 16)%nat then Byte.x00 else Byte.xff.
Proof.
  apply (pbuf_as_clears_prefix_only 16 stale_encoder (fun _ => Byte.xff)).
  - reflexivity.
  - apply Nat.leb_le. reflexivity.
Defined.

(** X3: two calls of [pbuf_as] in a row, for structures that fit, hand out
    the same address and leave the buffer as one call for the larger of the
    two structures would: the second structure lies on top of the first. *)
Theorem pbuf_as_twice_clears_larger :
  forall (sizeof_T sizeof_U : nat) (e : encoder) (m : memory),
    pbuf e = Some m ->
    (sizeof_T <= 2048)%nat ->
    (sizeof_U <= 2048)%nat ->
    exists v1 v2 m2,
      pbuf_as sizeof_T e = done v1 /\
      pbuf_as sizeof_U (view_encoder v1) = done v2 /\
      view_ptr v2 = view_ptr v1 /\
      pbuf (view_encoder v2) = Some m2 /\
      forall a : nat,
        (a < 2048)%nat ->
        m2 a = if (a <? Nat.max sizeof_T sizeof_U)%nat then Byte.x00 else m a.
Proof.
  intros sizeof_T sizeof_U e m Hp HT HU.
  destruct (pbuf_as_inside sizeof_T e m Hp HT) as (m1 & Hv1 & Hm1).
  assert (Hp1 : pbuf (with_pbuf (Some m1) e) = Some m1) by reflexivity.
  destruct (pbuf_as_inside sizeof_U _ m1 Hp1 HU) as (m2 & Hv2 & Hm2).
  do 3 eexists. split; [exact Hv1|]. cbn [view_encoder view_ptr].
  split; [exact Hv2|]. split; [reflexivity|]. split; [reflexivity|].
  intros a _. rewrite Hm2. unfold cleared at 1. rewrite Hm1. unfold cleared.
  destruct (Nat.leb_spec 0 a), (Nat.ltb_spec a (0 + sizeof_U)),
    (Nat.ltb_spec a (0 + sizeof_T)),
    (Nat.ltb_spec a (Nat.max sizeof_T sizeof_U)); cbn; try reflexivity; lia.
Qed.

Lemma pbuf_as_twice_clears_larger_witness :
  exists v1 v2 m2,
    pbuf_as 64 stale_encoder = done v1 /\
    pbuf_as 16 (view_encoder v1) = done v2 /\
    view_ptr v2 = view_ptr v1 /\
    pbuf (view_encoder v2) = Some m2 /\
    forall a : nat,
      (a < 2048)%nat ->
      m2 a = if (a <? Nat.max 64 16)%nat then Byte.x00 else Byte.xff.
Proof.
  apply (pbuf_as_twice_clears_larger 64 16 stale_encoder (fun _ => Byte.xff)).
  - reflexivity.
  - apply Nat.leb_le. reflexivity.
  - apply Nat.leb_le. reflexivity.
Defined.



(** X5: [set_callback] overwrites: of two calls only the second counts,
    the slot holds exactly what was passed last (an empty function
    included), and no observer, handle or scratch pointer is affected. *)
Theorem set_callback_overwrites :
  forall (cb1 cb2 : data_callback_t) (os : list observer) (e : encoder),
    exec (set_callback cb2) (exec (set_callback cb1) e) =
      exec (set_callback cb2) e /\
    data_cb (exec (set_callback cb2) e) = cb2 /\
    pbuf (exec (set_callback cb2) e) = pbuf e /\
    same_session e (exec (set_callback cb2) e) /\
    eval (observe_all os) (exec (set_callback cb2) e) =
      eval (observe_all os) e.
Proof.
  intros cb1 cb2 os e. split; [reflexivity|]. split; [reflexivity|].
  split; [reflexivity|]. split; [repeat split|].
  apply observe_all_by_members. reflexivity.
Qed.

(** X6: marshalling through the scratch buffer is invisible from outside:
    after a call of [pbuf_as<T>] that is defined, every sequence of
    observers answers as before, and the callback slot and the handles are
    the same. *)
Theorem pbuf_as_is_invisible_to_observers :
  forall (sizeof_T : nat) (os : list observer) (e : encoder) (v : pbuf_view),
    pbuf_as sizeof_T e = done v ->
    eval (observe_all os) (view_encoder v) = eval (observe_all os) e /\
    data_cb (view_encoder v) = data_cb e /\
    same_session e (view_encoder v).
Proof.
  intros sizeof_T os e v H. unfold pbuf_as in H.
  destruct (pbuf e) as [m|]; [|discriminate].
  destruct (memset m 0 Byte.x00 sizeof_T) as [[m' ws]|f]; [|discriminate].
  injection H as <-. cbn [view_encoder].
  split; [apply observe_all_by_members; reflexivity|].
  split; [reflexivity|repeat split].
Qed.

Lemma pbuf_as_is_invisible_to_observers_witness :
  exists v,
    pbuf_as 16 stale_encoder = done v /\
    eval (observe_all [call_time; call_total_frames; call_buffer])
      (view_encoder v) =
    eval (observe_all [call_time; call_total_frames; call_buffer])
      stale_encoder /\
    data_cb (view_encoder v) = data_cb stale_encoder /\
    same_session stale_encoder (view_encoder v).
Proof.
  destruct (pbuf_as 16 stale_encoder) as [v|f] eqn:Hv.
  - exists v. split; [reflexivity|].
    apply (pbuf_as_is_invisible_to_observers 16
             [call_time; call_total_frames; call_buffer] stale_encoder v Hv).
  - exfalso. vm_compute in Hv. discriminate.
Defined.

(** X7: [fps()] divides without looking at the denominator: with a frame
    rate of 0/0 (what the members are initialised to) it is NaN, and then
    [time()] is NaN whatever the frame counter holds. *)
Theorem zero_rate_makes_time_nan :
  forall e : encoder,
    eval fps_exact e = mk_uint2 0 0 ->
    eval fps e = PrimFloat.nan /\ eval time e = PrimFloat.nan.
Proof.
  intros e Hr. change (fps_ e = mk_uint2 0 0) in Hr.
  assert (Hfps : eval fps e = PrimFloat.nan).
  { unfold eval, fps, bind, member, ret. cbn. rewrite Hr. reflexivity. }
  split; [exact Hfps|].
  rewrite time_unfold. rewrite Hr. cbn [x y].
  apply Prim2SF_inj. rewrite FloatAxioms.div_spec.
  replace (Prim2SF (PrimFloat.div (double_of_uint32 0) (double_of_uint32 0)))
    with S754_nan by reflexivity.
  replace (Prim2SF PrimFloat.nan) with S754_nan by reflexivity.
  unfold SF64div, SFdiv.
  destruct (Prim2SF (double_of_uint32 (frames_encoded e))); reflexivity.
Qed.

Lemma zero_rate_makes_time_nan_witness :
  eval fps (mk_encoder None None 0 (mk_uint2 0 0) (mk_uint2 0 0) 0 0 0 0 7)
    = PrimFloat.nan /\
  eval time (mk_encoder None None 0 (mk_uint2 0 0) (mk_uint2 0 0) 0 0 0 0 7)
    = PrimFloat.nan.
Proof.
  apply (zero_rate_makes_time_nan
           (mk_encoder None None 0 (mk_uint2 0 0) (mk_uint2 0 0) 0 0 0 0 7)).
  reflexivity.
Defined.

End Header.

End eznve.
